(** * Rate reconciliation of planMatrix-billRate-Update/function_app.py

    Shallow embedding of the HTTP function [update_bill_rate]: the
    DataFrames read from [planned_matrix.csv] (the baseline) and
    [Labor Category.csv] (the overrides, after the column rename) are lists
    of rows holding the Python values that [pd.read_csv] produced; the
    function's body (dropna, type casts, groupby-max, left merge,
    combine_first, row-count check, write-back) is translated stage by
    stage, errors being an explicit sum type caught by the outer
    [try/except] of the handler. A second layer takes the two DataFrames
    with their headers ([read_csv_from_blob]'s header strip, the rename,
    the [KeyError] of a missing column) and builds on the first. *)

From Stdlib Require Import ZArith QArith Qreduction String Ascii List Bool Lia Permutation.
Import ListNotations.

Local Open Scope Z_scope.

(** ** Python values *)

(** A Python [float]: finite values are kept exactly as rationals (no
    rounding or overflow), plus the IEEE infinities and NaN. *)
Inductive fval : Type :=
| FNum (q : Q)
| FInf (neg : bool)
| FNaN.

(** A cell of a DataFrame after [pd.read_csv]: a [str], an [int] or a
    [float]; a missing cell is NaN. *)
Inductive pyval : Type :=
| VStr (s : string)
| VInt (z : Z)
| VFloat (f : fval).

Definition fval_eq_dec (a b : fval) : {a = b} + {a <> b}.
Proof. decide equality; [ | apply Bool.bool_dec]. decide equality; [apply Pos.eq_dec | apply Z.eq_dec]. Defined.

Definition pyval_eq_dec (a b : pyval) : {a = b} + {a <> b}.
Proof. decide equality; [apply string_dec | apply Z.eq_dec | apply fval_eq_dec]. Defined.

(** pandas' [isna] on a cell and on a float. *)
Definition isna (v : pyval) : bool :=
  match v with VFloat FNaN => true | _ => false end.

Definition fisna (f : fval) : bool :=
  match f with FNaN => true | _ => false end.

(** Strict [<] on non-NaN floats: [-inf < finite < +inf]. *)
Definition flt (a b : fval) : bool :=
  match a, b with
  | FNum x, FNum y => negb (Qle_bool y x)
  | FInf true, FNum _ | FInf true, FInf false => true
  | FNum _, FInf false => true
  | _, _ => false
  end.

(** One step of pandas' cython [group_max] with [skipna]: NaN values are
    skipped, a value replaces the running maximum when it is greater. *)
Definition fmax (acc v : fval) : fval :=
  match acc, v with
  | _, FNaN => acc
  | FNaN, _ => v
  | _, _ => if flt acc v then v else acc
  end.

(** ** Character-level helpers for Python's [int()] and [float()]

    Strings are lists of ASCII characters. Python first maps Unicode
    whitespace to a space and Unicode decimal digits to ASCII digits; that
    step is not modelled, so these parsers are Python's only on ASCII text
    (see [ascii_text]). *)

Definition is_digit (c : ascii) : bool :=
  let n := nat_of_ascii c in (48 <=? n)%nat && (n <=? 57)%nat.

Definition digit_val (c : ascii) : Z := Z.of_nat (nat_of_ascii c) - 48.

(** The ASCII characters Python counts as whitespace ([\t] to [\r], the
    separators 28 to 31, and the space). *)
Definition is_space (c : ascii) : bool :=
  match nat_of_ascii c with
  | 9 | 10 | 11 | 12 | 13 | 28 | 29 | 30 | 31 | 32 => true
  | _ => false
  end%nat.

Fixpoint drop_spaces (l : list ascii) : list ascii :=
  match l with
  | c :: r => if is_space c then drop_spaces r else l
  | [] => []
  end.

(** [str.strip()] on the ASCII whitespace. *)
Definition strip (l : list ascii) : list ascii :=
  rev (drop_spaces (rev (drop_spaces l))).

Definition lower (c : ascii) : ascii :=
  let n := nat_of_ascii c in
  if (65 <=? n)%nat && (n <=? 90)%nat then ascii_of_nat (n + 32) else c.

(** The digits following a first digit, where a single [_] may separate two
    digits (PEP 515); returns the value, the number of digits and the rest. *)
Fixpoint digits_go (l : list ascii) (acc : Z) (n : nat) : Z * nat * list ascii :=
  match l with
  | c :: r =>
      if is_digit c then digits_go r (acc * 10 + digit_val c) (S n)
      else if Ascii.eqb c "_"%char then
        match r with
        | d :: r' => if is_digit d then digits_go r' (acc * 10 + digit_val d) (S n)
                     else (acc, n, l)
        | [] => (acc, n, l)
        end
      else (acc, n, l)
  | [] => (acc, n, [])
  end.

Definition digitpart (l : list ascii) : option (Z * nat * list ascii) :=
  match l with
  | c :: r => if is_digit c then Some (digits_go r (digit_val c) 1) else None
  | [] => None
  end.

(** An optional sign: [true] for [-]. *)
Definition sign (l : list ascii) : bool * list ascii :=
  match l with
  | c :: r => if Ascii.eqb c "-"%char then (true, r)
              else if Ascii.eqb c "+"%char then (false, r) else (false, l)
  | [] => (false, [])
  end.

(** Python's [int(s)] in base 10, on ASCII text. *)
Definition py_int (s : string) : option Z :=
  let '(neg, l) := sign (strip (list_ascii_of_string s)) in
  match digitpart l with
  | Some (m, _, []) => Some (if neg then - m else m)
  | _ => None
  end.

(** [mant * 10^(e - k)], in lowest terms. *)
Definition scaled (mant : Z) (k : nat) (e : Z) : Q :=
  let p := e - Z.of_nat k in
  if 0 <=? p then Qred (inject_Z (mant * 10 ^ p))
  else Qred (mant # Z.to_pos (10 ^ (- p))).

(** The optional exponent after a mantissa, which must end the string. *)
Definition exponent (mant : Z) (k : nat) (l : list ascii) : option Q :=
  match l with
  | [] => Some (scaled mant k 0)
  | c :: r =>
      if Ascii.eqb (lower c) "e"%char then
        let '(eneg, r1) := sign r in
        match digitpart r1 with
        | Some (e, _, []) => Some (scaled mant k (if eneg then - e else e))
        | _ => None
        end
      else None
  end.

(** A decimal literal: [digits ["." [digits]] [exp]] or [. digits [exp]]. *)
Definition decimal (l : list ascii) : option Q :=
  match digitpart l with
  | Some (m, _, rest) =>
      match rest with
      | c :: r =>
          if Ascii.eqb c "."%char then
            match digitpart r with
            | Some (f, k, r2) => exponent (m * 10 ^ Z.of_nat k + f) k r2
            | None => exponent m 0 r
            end
          else exponent m 0 rest
      | [] => exponent m 0 []
      end
  | None =>
      match l with
      | c :: r =>
          if Ascii.eqb c "."%char then
            match digitpart r with
            | Some (f, k, r2) => exponent f k r2
            | None => None
            end
          else None
      | [] => None
      end
  end.

(** Python's [float(s)] on ASCII text: surrounding whitespace, a sign, then
    [inf], [infinity] or [nan] in any case, or a decimal literal. Whether it
    accepts a text is Python's; a finite value is kept exactly (no binary64
    rounding, no overflow to infinity). *)
Definition py_float (s : string) : option fval :=
  let '(neg, l) := sign (strip (list_ascii_of_string s)) in
  let low := string_of_list_ascii (map lower l) in
  if String.eqb low "inf"%string || String.eqb low "infinity"%string then Some (FInf neg)
  else if String.eqb low "nan"%string then Some FNaN
  else match decimal l with
       | Some q => Some (FNum (if neg then Qred (- q) else q))
       | None => None
       end.

(** ** Tables *)

(** A [datetime64] value as produced by [pd.to_datetime]; [None] is NaT. *)
Definition date := Z.

(** A row of [planned_matrix_df] as read by [pd.read_csv]; [p_extra] holds
    the passthrough columns. *)
Record prow := {
  p_person : pyval; p_project : pyval; p_lcat : pyval;
  p_begin : pyval; p_end : pyval; p_bill : pyval;
  p_extra : list (string * pyval) }.

(** A row of [labor_category_df] after the column rename ([l_rate] is the
    [new_billRate] column). *)
Record lrow := {
  l_person : pyval; l_project : pyval; l_lcat : pyval;
  l_begin : pyval; l_end : pyval; l_rate : pyval;
  l_extra : list (string * pyval) }.

(** A baseline row after the casts: nullable [Int64] keys, [datetime64]
    dates; [laborCategory.name] and [billRate] are left as read. *)
Record brow := {
  b_person : option Z; b_project : option Z; b_lcat : pyval;
  b_begin : option date; b_end : option date; b_bill : pyval;
  b_extra : list (string * pyval) }.

(** An override row after the casts; [new_billRate] is a [float64]. *)
Record orow := {
  o_person : option Z; o_project : option Z; o_lcat : pyval;
  o_begin : option date; o_end : option date; o_rate : fval;
  o_extra : list (string * pyval) }.

(** The merge key [["person.key", "project.key", "laborCategory.name",
    "beginDate", "endDate"]]. *)
Definition key : Type := (option Z * option Z * pyval * option date * option date)%type.

Definition key_eq_dec (a b : key) : {a = b} + {a <> b}.
Proof.
  repeat decide equality; first [apply Z.eq_dec | apply pyval_eq_dec].
Defined.

Definition key_eqb (a b : key) : bool := if key_eq_dec a b then true else false.

Definition bkey (b : brow) : key := (b_person b, b_project b, b_lcat b, b_begin b, b_end b).
Definition okey (o : orow) : key := (o_person o, o_project o, o_lcat o, o_begin o, o_end o).

(** [groupby] drops the groups whose key has a missing value ([dropna=True]). *)
Definition key_notna (k : key) : bool :=
  match k with
  | (Some _, Some _, l, Some _, Some _) => negb (isna l)
  | _ => false
  end.

(** ** The reconciliation (lines 108-125) *)

(** Adds one row to the running groups, in first-appearance order of the
    keys. pandas returns the groups sorted by key; the order of the grouped
    frame is not observable through the left merge below, whose output
    follows the baseline. *)
Fixpoint gm_insert (k : key) (v : fval) (acc : list (key * fval)) : list (key * fval) :=
  match acc with
  | [] => [(k, v)]
  | (k', m) :: t => if key_eqb k k' then (k', fmax m v) :: t else (k', m) :: gm_insert k v t
  end.

(** [labor_category_df.groupby(keys, as_index=False).agg({"new_billRate": "max"})] *)
Definition groupby_max (Os : list orow) : list (key * fval) :=
  fold_left (fun acc o => gm_insert (okey o) (o_rate o) acc)
            (filter (fun o => key_notna (okey o)) Os) [].

(** The rows of the grouped frame whose key equals [k] (pandas' merge
    compares keys by value, a missing value matching a missing value). *)
Definition matches (D : list (key * fval)) (k : key) : list (key * fval) :=
  filter (fun e => key_eqb k (fst e)) D.

(** [planned_matrix_df.merge(labor_category_df, on=keys, how="left")]: each
    baseline row, in order, once per matching override row, or once with a
    NaN [new_billRate] when nothing matches. *)
Definition merge_left (B : list brow) (D : list (key * fval)) : list (brow * fval) :=
  flat_map (fun b =>
              match matches D (bkey b) with
              | [] => [(b, FNaN)]
              | ms => map (fun e => (b, snd e)) ms
              end) B.

(** [new_billRate.combine_first(billRate)] on one row (values only; the
    column's storage dtype is not modelled). *)
Definition combine_first (n : fval) (old : pyval) : pyval :=
  if fisna n then old else VFloat n.

Definition set_bill (b : brow) (v : pyval) : brow :=
  {| b_person := b_person b; b_project := b_project b; b_lcat := b_lcat b;
     b_begin := b_begin b; b_end := b_end b; b_bill := v; b_extra := b_extra b |}.

(** Line 122, then dropping the helper column [new_billRate] (line 125). *)
Definition substitute (J : list (brow * fval)) : list brow :=
  map (fun '(b, n) => set_bill b (combine_first n (b_bill b))) J.

(** Lines 108-125 on the normalised tables. *)
Definition reconcile (B : list brow) (Os : list orow) : list brow :=
  substitute (merge_left B (groupby_max Os)).

(** ** Normalisation (lines 84-106) *)

(** A Python exception raised by a cast, with the column it came from. *)
Inductive exn : Type :=
| ValueError (column : string) (value : pyval).

Definition res (A : Type) : Type := (exn + A)%type.

Definition bind {A B} (m : res A) (k : A -> res B) : res B :=
  match m with inl e => inl e | inr a => k a end.

Notation "x <- m ;; k" := (bind m (fun x => k))
  (at level 61, m at next level, right associativity).

(** A column-wise cast: the first failing cell raises. *)
Fixpoint traverse {A B} (f : A -> res B) (l : list A) : res (list B) :=
  match l with
  | [] => inr []
  | a :: t => b <- f a ;; bt <- traverse f t ;; inr (b :: bt)
  end.

(** [.astype("Int64")] on one cell: NaN becomes NA, an integral float its
    integer, a string goes through [int()]; anything else raises. *)
Definition to_int64 (col : string) (v : pyval) : res (option Z) :=
  match v with
  | VInt z => inr (Some z)
  | VFloat FNaN => inr None
  | VFloat (FNum q) =>
      if Z.eqb (Qnum q mod Zpos (Qden q)) 0 then inr (Some (Qnum q / Zpos (Qden q)))
      else inl (ValueError col v)
  | VFloat (FInf _) => inl (ValueError col v)
  | VStr s => match py_int s with Some z => inr (Some z) | None => inl (ValueError col v) end
  end.

(** [.str.replace("$", "").str.replace(",", "")]. *)
Definition strip_currency (s : string) : string :=
  string_of_list_ascii
    (filter (fun c => negb (Ascii.eqb c "$"%char || Ascii.eqb c ","%char))
            (list_ascii_of_string s)).

(** Lines 94-100 on one cell: [.astype(str)], the two replacements, then
    [.astype(float)], that is Python's [float()]. An [int] or a [float]
    prints without [$] or [,], and [float(str(x))] gives [x] back. *)
Definition to_float_rate (v : pyval) : res fval :=
  match v with
  | VStr s => match py_float (strip_currency s) with
              | Some f => inr f
              | None => inl (ValueError "new_billRate" v)
              end
  | VInt z => inr (FNum (inject_Z z))
  | VFloat f => inr f
  end.

(** [dropna(subset=[...six fields...])] keeps the rows with all six present. *)
Definition complete (r : lrow) : bool :=
  negb (isna (l_person r) || isna (l_project r) || isna (l_lcat r)
        || isna (l_begin r) || isna (l_end r) || isna (l_rate r)).

Fixpoint build_b (P : list prow) (pp pj : list (option Z)) (pb pe : list (option date))
  : list brow :=
  match P, pp, pj, pb, pe with
  | r :: P', a :: pp', b :: pj', c :: pb', d :: pe' =>
      {| b_person := a; b_project := b; b_lcat := p_lcat r; b_begin := c; b_end := d;
         b_bill := p_bill r; b_extra := p_extra r |} :: build_b P' pp' pj' pb' pe'
  | _, _, _, _, _ => []
  end.

Fixpoint build_o (L : list lrow) (lp lj : list (option Z)) (lr : list fval)
  (lb le : list (option date)) : list orow :=
  match L, lp, lj, lr, lb, le with
  | r :: L', a :: lp', b :: lj', f :: lr', c :: lb', d :: le' =>
      {| o_person := a; o_project := b; o_lcat := l_lcat r; o_begin := c; o_end := d;
         o_rate := f; o_extra := l_extra r |} :: build_o L' lp' lj' lr' lb' le'
  | _, _, _, _, _, _ => []
  end.

(** Decimal text of a row count, as in an f-string. *)
Fixpoint nat_digits (fuel n : nat) (acc : string) : string :=
  match fuel with
  | O => acc
  | S f =>
      let acc' := String (ascii_of_nat (48 + n mod 10)) acc in
      if (n <? 10)%nat then acc' else nat_digits f (n / 10) acc'
  end.

Definition str_nat (n : nat) : string := nat_digits (S n) n "".

(** A [func.HttpResponse]. *)
Record response := Response { body : string; status_code : Z }.

(** The text of the exception in the generic error response; Python's own
    wording is not modelled, the column's name stands in for it. *)
Definition exn_message (e : exn) : string :=
  match e with ValueError col _ => "could not convert column " ++ col end.

(** Lines 127-139: the row-count check, then the write-back. The second
    component is the table written to [planned_matrix.csv], if any. *)
Definition finish (original updated : list brow) : response * option (list brow) :=
  let final_row_count := length updated in
  let original_row_count := length original in
  if negb (Nat.eqb final_row_count original_row_count) then
    (Response ("Row count mismatch: Original=" ++ str_nat original_row_count
               ++ ", Updated=" ++ str_nat final_row_count) 500, None)
  else (Response "CSV file updated and uploaded successfully." 200, Some updated).

Section Handler.

(** pandas' date parser on one present cell ([None]: it raises). *)
Variable parse_datetime : pyval -> option date.

(** [pd.to_datetime] on one cell: NaN becomes NaT. *)
Definition to_datetime (col : string) (v : pyval) : res (option date) :=
  if isna v then inr None
  else match parse_datetime v with
       | Some d => inr (Some d)
       | None => inl (ValueError col v)
       end.

(** Lines 84-106, in the order of the source. *)
Definition normalize (P : list prow) (L0 : list lrow) : res (list brow * list orow) :=
  let L := filter complete L0 in
  lp <- traverse (fun r => to_int64 "person.key" (l_person r)) L ;;
  lj <- traverse (fun r => to_int64 "project.key" (l_project r)) L ;;
  pp <- traverse (fun r => to_int64 "person.key" (p_person r)) P ;;
  pj <- traverse (fun r => to_int64 "project.key" (p_project r)) P ;;
  lr <- traverse (fun r => to_float_rate (l_rate r)) L ;;
  lb <- traverse (fun r => to_datetime "beginDate" (l_begin r)) L ;;
  le <- traverse (fun r => to_datetime "endDate" (l_end r)) L ;;
  pb <- traverse (fun r => to_datetime "beginDate" (p_begin r)) P ;;
  pe <- traverse (fun r => to_datetime "endDate" (p_end r)) P ;;
  inr (build_b P pp pj pb pe, build_o L lp lj lr lb le).

(** [update_bill_rate] on the two DataFrames read from the blobs; an
    exception inside the [try] becomes the generic 500 response. *)
Definition update_bill_rate (P : list prow) (L : list lrow) : response * option (list brow) :=
  match normalize P L with
  | inl e => (Response ("Error processing request: " ++ exn_message e) 500, None)
  | inr (B, Os) => finish B (reconcile B Os)
  end.

End Handler.

(** ** Vocabulary for the statements *)

(** [x <= y] on non-NaN floats. *)
Definition fle (x y : fval) : bool := negb (flt y x).

(** The [new_billRate] values of the override rows whose key is [k], among
    the rows [groupby] keeps. *)
Definition group_rates (Os : list orow) (k : key) : list fval :=
  map o_rate (filter (fun o => key_eqb k (okey o)) (filter (fun o => key_notna (okey o)) Os)).

(** The value the left merge attaches to a baseline row with key [k]. *)
Definition attached (D : list (key * fval)) (k : key) : option fval :=
  option_map snd (find (fun e => key_eqb k (fst e)) D).

Definition attached_rate (D : list (key * fval)) (k : key) : fval :=
  match attached D k with Some n => n | None => FNaN end.

(** The invariant of the [groupby] fold after the rows [l]. *)
Definition gm_inv (acc : list (key * fval)) (l : list orow) : Prop :=
  NoDup (map fst acc) /\
  (forall k, In k (map fst acc) <-> In k (map okey l)) /\
  (forall k v, In (k, v) acc ->
     v = fold_left fmax (map o_rate (filter (fun o => key_eqb k (okey o)) l)) FNaN).







Definition error_response (e : exn) : response :=
  Response ("Error processing request: " ++ exn_message e) 500.

Definition mismatch_response (original final : nat) : response :=
  Response ("Row count mismatch: Original=" ++ str_nat original
            ++ ", Updated=" ++ str_nat final) 500.

Definition success_response : response :=
  Response "CSV file updated and uploaded successfully." 200.

(** ** The DataFrames as read (lines 21-40, 62-125) *)

(** A DataFrame as [pd.read_csv] returns it: its header and its rows, each
    row a list of cells in column order. Parsing the CSV text, [skiprows]
    and the download are not modelled. Columns are looked up by their first
    occurrence: frames whose headers collide after stripping or renaming
    (pandas then returns several columns for one name) are outside the
    model, as are the dtype checks of [merge]. *)
Record frame := Frame { columns : list string; rows : list (list pyval) }.

(** [str.isspace] on an ASCII character (non-ASCII whitespace is not
    modelled). *)
Definition py_isspace (c : ascii) : bool :=
  let n := nat_of_ascii c in
  ((9 <=? n)%nat && (n <=? 13)%nat) || ((28 <=? n)%nat && (n <=? 32)%nat).

Fixpoint lstrip_ws (l : list ascii) : list ascii :=
  match l with
  | c :: r => if py_isspace c then lstrip_ws r else l
  | [] => []
  end.

(** [str.strip()] on a column name. *)
Definition str_strip (s : string) : string :=
  string_of_list_ascii (rev (lstrip_ws (rev (lstrip_ws (list_ascii_of_string s))))).

(** [df.columns = df.columns.str.strip()] (lines 34 and 70). *)
Definition strip_columns (df : frame) : frame :=
  Frame (map str_strip (columns df)) (rows df).

(** The dictionary of the rename on lines 73-82. *)
Definition labor_renames : list (string * string) :=
  [("Person Key"%string, "person.key"%string); ("Project Key"%string, "project.key"%string);
   ("Labor Category"%string, "laborCategory.name"%string);
   ("Bill Rate"%string, "new_billRate"%string); ("Begin Date"%string, "beginDate"%string);
   ("End Date"%string, "endDate"%string)].

(** [rename(columns=...)] on one name: a key of the dictionary is replaced,
    any other name is kept. *)
Definition rename_one (c : string) : string :=
  match find (fun p => String.eqb (fst p) c) labor_renames with
  | Some p => snd p
  | None => c
  end.

Definition rename_labor (df : frame) : frame :=
  Frame (map rename_one (columns df)) (rows df).

(** Line 64: [read_csv_from_blob(PLANNED_MATRIX_BLOB)]. *)
Definition planned_frame (raw : frame) : frame := strip_columns raw.

(** Lines 65, 70 and 73-82: read (stripping the header), stripped again,
    renamed. *)
Definition labor_frame (raw : frame) : frame :=
  rename_labor (strip_columns (strip_columns raw)).

(** The subset of the [dropna] on line 85. *)
Definition labor_required : list string :=
  ["person.key"; "project.key"; "laborCategory.name"; "beginDate"; "endDate";
   "new_billRate"]%string.

(** The columns of [planned_matrix_df] the handler reads: the two keys
    (lines 90-91), the dates (lines 105-106), the category (a merge key,
    line 117) and [billRate] (line 122). *)
Definition planned_required : list string :=
  ["person.key"; "project.key"; "laborCategory.name"; "beginDate"; "endDate";
   "billRate"]%string.

Definition mem (n : string) (cols : list string) : bool := existsb (String.eqb n) cols.

(** The names of [req] that are not columns, in the order of [req]. *)
Definition missing (cols req : list string) : list string :=
  filter (fun n => negb (mem n cols)) req.

Fixpoint col_index (n : string) (cols : list string) : option nat :=
  match cols with
  | [] => None
  | c :: cs => if String.eqb n c then Some 0%nat
               else option_map S (col_index n cs)
  end.

(** The cell of column [n] in a row. *)
Definition get (cols : list string) (row : list pyval) (n : string) : pyval :=
  match col_index n cols with
  | Some i => nth i row (VFloat FNaN)
  | None => VFloat FNaN
  end.

(** The other columns of a row, in column order. *)
Definition extras (cols : list string) (row : list pyval) (req : list string)
  : list (string * pyval) :=
  filter (fun e => negb (mem (fst e) req)) (combine cols row).

Definition to_prow (cols : list string) (row : list pyval) : prow :=
  {| p_person := get cols row "person.key"; p_project := get cols row "project.key";
     p_lcat := get cols row "laborCategory.name"; p_begin := get cols row "beginDate";
     p_end := get cols row "endDate"; p_bill := get cols row "billRate";
     p_extra := extras cols row planned_required |}.

Definition to_lrow (cols : list string) (row : list pyval) : lrow :=
  {| l_person := get cols row "person.key"; l_project := get cols row "project.key";
     l_lcat := get cols row "laborCategory.name"; l_begin := get cols row "beginDate";
     l_end := get cols row "endDate"; l_rate := get cols row "new_billRate";
     l_extra := extras cols row labor_required |}.

Definition planned_rows (raw : frame) : list prow :=
  map (to_prow (columns (planned_frame raw))) (rows (planned_frame raw)).

Definition labor_rows (raw : frame) : list lrow :=
  map (to_lrow (columns (labor_frame raw))) (rows (labor_frame raw)).

(** The exceptions of the handler's [try] block: a [KeyError] with the list
    of missing names ([dropna]), a [KeyError] with one name (a column
    lookup), or a failed cast. *)
Inductive frame_exn : Type :=
| KeyErrorList (names : list string)
| KeyErrorName (name : string)
| CastError (e : exn).

Definition fres (A : Type) : Type := (frame_exn + A)%type.

Definition fbind {A B} (m : fres A) (k : A -> fres B) : fres B :=
  match m with inl e => inl e | inr a => k a end.

Notation "x <~ m ;; k" := (fbind m (fun x => k))
  (at level 61, m at next level, right associativity).

Definition lift {A} (m : res A) : fres A :=
  match m with inl e => inl (CastError e) | inr a => inr a end.

(** [df[n]] on a missing column raises [KeyError(n)]. *)
Definition require_col (cols : list string) (n : string) : fres unit :=
  if mem n cols then inr tt else inl (KeyErrorName n).

Definition quote (n : string) : string := "'" ++ n ++ "'".

(** [str(e)] of the exception: a [KeyError] prints the repr of its
    argument. *)
Definition frame_exn_message (e : frame_exn) : string :=
  match e with
  | KeyErrorList ns => "[" ++ String.concat ", " (map quote ns) ++ "]"
  | KeyErrorName n => quote n
  | CastError e => exn_message e
  end.

Section FrameHandler.

Variable parse_datetime : pyval -> option date.

(** Lines 64-119 on the two frames, in the order of the source: the
    [dropna] of line 85 raises first when a labor column is missing; each
    planned column raises when it is first read. *)
Definition normalize_frames (Praw Lraw : frame) : fres (list brow * list orow) :=
  let Pc := columns (planned_frame Praw) in
  let P := planned_rows Praw in
  let L := filter complete (labor_rows Lraw) in
  _ <~ (match missing (columns (labor_frame Lraw)) labor_required with
        | [] => inr tt
        | ms => inl (KeyErrorList ms)
        end) ;;
  lp <~ lift (traverse (fun r => to_int64 "person.key" (l_person r)) L) ;;
  lj <~ lift (traverse (fun r => to_int64 "project.key" (l_project r)) L) ;;
  _ <~ require_col Pc "person.key" ;;
  pp <~ lift (traverse (fun r => to_int64 "person.key" (p_person r)) P) ;;
  _ <~ require_col Pc "project.key" ;;
  pj <~ lift (traverse (fun r => to_int64 "project.key" (p_project r)) P) ;;
  lr <~ lift (traverse (fun r => to_float_rate (l_rate r)) L) ;;
  lb <~ lift (traverse (fun r => to_datetime parse_datetime "beginDate" (l_begin r)) L) ;;
  le <~ lift (traverse (fun r => to_datetime parse_datetime "endDate" (l_end r)) L) ;;
  _ <~ require_col Pc "beginDate" ;;
  pb <~ lift (traverse (fun r => to_datetime parse_datetime "beginDate" (p_begin r)) P) ;;
  _ <~ require_col Pc "endDate" ;;
  pe <~ lift (traverse (fun r => to_datetime parse_datetime "endDate" (p_end r)) P) ;;
  _ <~ require_col Pc "laborCategory.name" ;;
  _ <~ (if mem "new_billRate" Pc then inl (KeyErrorName "new_billRate") else inr tt) ;;
  _ <~ require_col Pc "billRate" ;;
  inr (build_b P pp pj pb pe, build_o L lp lj lr lb le).

(** The handler on the two frames read from the blobs. The merge on
    [laborCategory.name] raises when the planned frame lacks it; a planned
    column [new_billRate] is suffixed by the merge, so line 122 raises;
    line 122 also reads [billRate]. *)
Definition update_frames (Praw Lraw : frame) : response * option (list brow) :=
  match normalize_frames Praw Lraw with
  | inl e => (Response ("Error processing request: " ++ frame_exn_message e) 500, None)
  | inr (B, Os) => finish B (reconcile B Os)
  end.

End FrameHandler.

(** Equality of float values ([==] on finite values, NaN equal to NaN,
    as pandas' [equals] compares columns). *)
Definition feq (a b : fval) : Prop :=
  match a, b with
  | FNum x, FNum y => Qeq x y
  | FInf s, FInf t => s = t
  | FNaN, FNaN => True
  | _, _ => False
  end.

Definition cell_equiv (a b : pyval) : Prop :=
  match a, b with
  | VFloat f, VFloat g => feq f g
  | _, _ => a = b
  end.

(** ** Concrete tables *)

Definition digits_value (l : list ascii) : Z :=
  fold_left (fun acc c => acc * 10 + digit_val c) l 0.

(** An instance of the date parser for the concrete runs: ISO
    [YYYY-MM-DD] text, read as the number [YYYYMMDD]. *)
Definition iso_date (v : pyval) : option date :=
  match v with
  | VStr s =>
      match list_ascii_of_string s with
      | [y1; y2; y3; y4; s1; m1; m2; s2; d1; d2] =>
          if forallb is_digit [y1; y2; y3; y4; m1; m2; d1; d2]
             && Ascii.eqb s1 "-"%char && Ascii.eqb s2 "-"%char
          then Some (digits_value [y1; y2; y3; y4] * 10000
                     + digits_value [m1; m2] * 100 + digits_value [d1; d2])
          else None
      | _ => None
      end
  | _ => None
  end.

Definition NaN : pyval := VFloat FNaN.

Definition ex_planned (person : pyval) (bill : pyval) : prow :=
  {| p_person := person; p_project := VInt 10; p_lcat := VStr "Engineer"%string;
     p_begin := VStr "2024-01-01"%string; p_end := VStr "2024-06-30"%string; p_bill := bill;
     p_extra := [("name"%string, VStr "Ada"%string)] |}.

Definition ex_labor (person : pyval) (end_ : pyval) (rate : pyval) : lrow :=
  {| l_person := person; l_project := VInt 10; l_lcat := VStr "Engineer"%string;
     l_begin := VStr "2024-01-01"%string; l_end := end_; l_rate := rate; l_extra := [] |}.

Definition ex_brow (bill : pyval) : brow :=
  {| b_person := Some 1; b_project := Some 10; b_lcat := VStr "Engineer"%string;
     b_begin := Some 20240101; b_end := Some 20240630; b_bill := bill;
     b_extra := [("name"%string, VStr "Ada"%string)] |}.

Definition ex_orow (rate : fval) : orow :=
  {| o_person := Some 1; o_project := Some 10; o_lcat := VStr "Engineer"%string;
     o_begin := Some 20240101; o_end := Some 20240630; o_rate := rate; o_extra := [] |}.
(** A labor file with headers as exported (padded, display names) and a
    planned file with one matching row. *)
Definition ex_labor_frame (end_header : string) : frame :=
  Frame [" Person Key"; "Project Key"; "Labor Category"; "Bill Rate "; "Begin Date";
         end_header]%string
        [[VInt 1; VInt 10; VStr "Engineer"%string; VStr "$1,250.00"%string;
          VStr "2024-01-01"%string; VStr "2024-06-30"%string]].

Definition ex_planned_frame (bill_header : string) : frame :=
  Frame ["person.key"; "project.key"; "laborCategory.name"; "beginDate"; "endDate";
         bill_header; "name"]%string
        [[VInt 1; VInt 10; VStr "Engineer"%string; VStr "2024-01-01"%string;
          VStr "2024-06-30"%string; VFloat (FNum 100); VStr "Ada"%string]].

Example py_float_1 : py_float " 1_000.50 "%string = Some (FNum (2001 # 2)).
Proof. reflexivity. Qed.
Example py_float_2 : py_float "1e3"%string = Some (FNum 1000).
Proof. reflexivity. Qed.
Example py_float_3 : py_float "-Inf"%string = Some (FInf true).
Proof. reflexivity. Qed.
Example py_float_4 : py_float "12abc"%string = None.
Proof. reflexivity. Qed.
Example py_float_5 : py_float "1._5"%string = None.
Proof. reflexivity. Qed.
Example py_float_6 : py_float ".5e-1"%string = Some (FNum (1 # 20)).
Proof. reflexivity. Qed.
Example py_int_1 : py_int " -0012 "%string = Some (-12).
Proof. reflexivity. Qed.

Example scenario_match :
  update_bill_rate iso_date [ex_planned (VInt 1) (VFloat (FNum 100))]
    [ex_labor (VInt 1) (VStr "2024-06-30"%string) (VStr "$125.00"%string)]
  = (success_response, Some [ex_brow (VFloat (FNum 125))]).
Proof. reflexivity. Qed.

Example scenario_no_match :
  update_bill_rate iso_date [ex_planned (VInt 1) (VFloat (FNum 100))]
    [ex_labor (VInt 1) (VStr "2024-12-31"%string) (VStr "$125.00"%string)]
  = (success_response, Some [ex_brow (VFloat (FNum 100))]).
Proof. reflexivity. Qed.

Example scenario_max :
  update_bill_rate iso_date [ex_planned (VInt 1) (VFloat (FNum 100))]
    [ex_labor (VInt 1) (VStr "2024-06-30"%string) (VStr "$1,100"%string);
     ex_labor (VInt 1) (VStr "2024-06-30"%string) (VStr "$150"%string)]
  = (success_response, Some [ex_brow (VFloat (FNum 1100))]).
Proof. reflexivity. Qed.

Example str_nat_12 : str_nat 120 = "120"%string.
Proof. reflexivity. Qed.

(** The two files end to end: padded display headers, a [$1,250.00] rate. *)
Example frames_scenario :
  update_frames iso_date (ex_planned_frame "billRate"%string) (ex_labor_frame " End Date "%string) =
  (success_response,
   Some [{| b_person := Some 1; b_project := Some 10; b_lcat := VStr "Engineer"%string;
            b_begin := Some 20240101; b_end := Some 20240630; b_bill := VFloat (FNum 1250);
            b_extra := [("name"%string, VStr "Ada"%string)] |}]).
Proof. vm_compute. reflexivity. Qed.

Example frames_missing_messages :
  fst (update_frames iso_date (ex_planned_frame "billRate"%string) (ex_labor_frame "Finish"%string))
  = Response "Error processing request: ['endDate']"%string 500 /\
  fst (update_frames iso_date (ex_planned_frame "new_billRate"%string)
         (ex_labor_frame " End Date "%string))
  = Response "Error processing request: 'new_billRate'"%string 500.
Proof. split; vm_compute; reflexivity. Qed.

(** ** Orders on floats *)

Ltac case_if :=
  match goal with |- context [if ?c then _ else _] => destruct c eqn:? end.

Lemma flt_irrefl (a : fval) : flt a a = false.
Proof.
  destruct a as [q | [|] |]; simpl; auto.
  rewrite (proj2 (Qle_bool_iff q q)); [reflexivity | apply Qle_refl].
Qed.

Lemma flt_asym (a b : fval) : flt a b = true -> flt b a = false.
Proof.
  destruct a as [x | [|] |], b as [y | [|] |]; simpl; try discriminate; auto.
  intro H. apply negb_true_iff in H. apply negb_false_iff.
  apply Qle_bool_iff. destruct (Qle_bool y x) eqn:E; [discriminate|].
  destruct (Qlt_le_dec x y) as [Hl | Hl]; [apply Qlt_le_weak; exact Hl|].
  apply Qle_bool_iff in Hl. congruence.
Qed.

Lemma fle_trans (a b c : fval) :
  fisna a = false -> fisna b = false -> fisna c = false ->
  fle a b = true -> fle b c = true -> fle a c = true.
Proof.
  unfold fle.
  destruct a as [x | [|] |], b as [y | [|] |], c as [z | [|] |];
    simpl; intros; try discriminate; auto.
  rewrite negb_involutive in *.
  apply Qle_bool_iff. apply Qle_bool_iff in H2, H3. eapply Qle_trans; eauto.
Qed.

Lemma fle_refl (a : fval) : fle a a = true.
Proof. unfold fle. rewrite flt_irrefl. reflexivity. Qed.

Lemma fmax_nan_l (v : fval) : fmax FNaN v = v.
Proof. destruct v; reflexivity. Qed.

Lemma fmax_cases (a x : fval) : fmax a x = a \/ fmax a x = x.
Proof.
  unfold fmax; destruct a, x; auto; case_if; auto.
Qed.

Lemma fmax_notna_l (a x : fval) : fisna a = false -> fisna (fmax a x) = false.
Proof.
  intro H. unfold fmax; destruct a, x; simpl in *; auto; case_if; auto.
Qed.

Lemma fmax_notna_r (a x : fval) : fisna x = false -> fisna (fmax a x) = false.
Proof.
  intro H. unfold fmax; destruct a, x; simpl in *; auto; try discriminate;
    case_if; auto.
Qed.

Lemma fmax_ge_l (a x : fval) : fisna a = false -> fle a (fmax a x) = true.
Proof.
  intro H. unfold fmax.
  destruct a; try discriminate; destruct x; try apply fle_refl;
    destruct (flt _ _) eqn:E; try apply fle_refl;
    unfold fle; rewrite (flt_asym _ _ E); reflexivity.
Qed.

Lemma fmax_ge_r (a x : fval) : fisna x = false -> fle x (fmax a x) = true.
Proof.
  intro H. unfold fmax.
  destruct x; try discriminate; destruct a; try apply fle_refl;
    destruct (flt _ _) eqn:E; try apply fle_refl; unfold fle; rewrite E; reflexivity.
Qed.

(** The running maximum [fold_left fmax l a]: NaN only when every value
    (and [a]) is NaN; otherwise one of them, and at least all others. *)
Lemma fold_fmax_spec (l : list fval) (a : fval) :
  let v := fold_left fmax l a in
  (v = a \/ In v l) /\
  ((fisna a = true /\ forall x, In x l -> fisna x = true) -> fisna v = true) /\
  ((fisna a = false \/ exists x, In x l /\ fisna x = false) -> fisna v = false) /\
  (forall x, (x = a \/ In x l) -> fisna x = false -> fle x v = true).
Proof.
  revert a; induction l as [| y l IH]; intro a; simpl.
  - split; [auto|]. split; [tauto|]. split.
    + intros [H | [x [[] _]]]; exact H.
    + intros x [-> | []] _. apply fle_refl.
  - destruct (IH (fmax a y)) as [Hin [Hnan [Hnot Hge]]].
    split; [| split; [| split]].
    + destruct Hin as [Hin | Hin]; [| auto].
      destruct (fmax_cases a y) as [E | E]; rewrite E in *;
        [left | right; left; symmetry]; exact Hin.
    + intros [Ha Hl]. apply Hnan. split; [| intros; apply Hl; auto].
      unfold fmax. destruct a; try discriminate.
      destruct y; auto; exfalso; specialize (Hl _ (or_introl eq_refl)); discriminate.
    + intros H. apply Hnot.
      destruct H as [H | [x [[<- | Hx] Hn]]].
      * left; apply fmax_notna_l; exact H.
      * left; apply fmax_notna_r; exact Hn.
      * right; exists x; auto.
    + intros x Hx Hn. destruct Hx as [-> | [<- | Hx]].
      * apply (fle_trans _ (fmax a y)); auto.
        -- apply fmax_notna_l; auto.
        -- apply Hnot. left. apply fmax_notna_l; auto.
        -- apply fmax_ge_l; auto.
        -- apply Hge; auto. apply fmax_notna_l; auto.
      * apply (fle_trans _ (fmax a y)); auto.
        -- apply fmax_notna_r; auto.
        -- apply Hnot. left. apply fmax_notna_r; auto.
        -- apply fmax_ge_r; auto.
        -- apply Hge; auto. apply fmax_notna_r; auto.
      * apply Hge; auto.
Qed.

(** ** The grouped overrides *)

Lemma key_eqb_true (k k' : key) : key_eqb k k' = true <-> k = k'.
Proof. unfold key_eqb; destruct (key_eq_dec k k'); split; congruence. Qed.

Lemma key_eqb_refl (k : key) : key_eqb k k = true.
Proof. apply key_eqb_true; reflexivity. Qed.

Lemma key_eqb_false (k k' : key) : key_eqb k k' = false <-> k <> k'.
Proof. unfold key_eqb; destruct (key_eq_dec k k'); split; congruence. Qed.

Lemma gm_insert_keys (k : key) (v : fval) (acc : list (key * fval)) (k' : key) :
  In k' (map fst (gm_insert k v acc)) <-> k = k' \/ In k' (map fst acc).
Proof.
  induction acc as [| [k0 m] t IH]; simpl.
  - tauto.
  - case_if; simpl.
    + apply key_eqb_true in Heqb; subst; tauto.
    + rewrite IH; tauto.
Qed.

Lemma gm_insert_nodup (k : key) (v : fval) (acc : list (key * fval)) :
  NoDup (map fst acc) -> NoDup (map fst (gm_insert k v acc)).
Proof.
  induction acc as [| [k0 m] t IH]; simpl; intro Hnd.
  - constructor; [intros [] | constructor].
  - inversion Hnd as [| ? ? Hk0 Ht]; subst.
    case_if; simpl; constructor; auto.
    rewrite gm_insert_keys. apply key_eqb_false in Heqb. intros [E | E]; auto.
Qed.

Lemma gm_insert_in (k : key) (v : fval) (acc : list (key * fval)) (k' : key) (m' : fval) :
  NoDup (map fst acc) -> In (k', m') (gm_insert k v acc) ->
  (k' = k /\ ((exists m, In (k, m) acc /\ m' = fmax m v) \/ (~ In k (map fst acc) /\ m' = v)))
  \/ (k' <> k /\ In (k', m') acc).
Proof.
  induction acc as [| [k0 m] t IH]; simpl; intros Hnd Hin.
  - destruct Hin as [E | []]. inversion E; subst. left; split; auto.
  - inversion Hnd as [| ? ? Hk0 Ht]; subst.
    destruct (key_eqb k k0) eqn:Heqb.
    + apply key_eqb_true in Heqb; subst k0.
      destruct Hin as [E | Hin].
      * inversion E; subst. left; split; [reflexivity|]. left; exists m; auto.
      * right; split; [| auto].
        intro; subst k'. apply Hk0. apply (in_map fst) in Hin; exact Hin.
    + apply key_eqb_false in Heqb.
      destruct Hin as [E | Hin].
      * inversion E; subst. right; split; auto.
      * destruct (IH Ht Hin) as [[-> [[m0 [Hm ->]] | [Hn ->]]] | [Hne Hin']].
        -- left; split; auto. left; exists m0; auto.
        -- left; split; auto. right; split; auto. intros [E | E]; auto.
        -- right; auto.
Qed.

Lemma filter_key_absent (k : key) (l : list orow) :
  ~ In k (map okey l) -> filter (fun o => key_eqb k (okey o)) l = [].
Proof.
  induction l as [| o l IH]; simpl; intro H; auto.
  destruct (key_eqb k (okey o)) eqn:E.
  - apply key_eqb_true in E. exfalso; auto.
  - apply IH; auto.
Qed.

Lemma gm_inv_step (acc : list (key * fval)) (l : list orow) (o : orow) :
  gm_inv acc l -> gm_inv (gm_insert (okey o) (o_rate o) acc) (l ++ [o]).
Proof.
  intros [Hnd [Hkeys Hval]]. split; [| split].
  - apply gm_insert_nodup; exact Hnd.
  - intro k. rewrite gm_insert_keys, map_app, in_app_iff, Hkeys. simpl. tauto.
  - intros k v Hin. rewrite filter_app, map_app, fold_left_app. simpl.
    destruct (gm_insert_in _ _ _ _ _ Hnd Hin)
      as [[-> [[m [Hm ->]] | [Hn ->]]] | [Hne Hin']].
    + rewrite key_eqb_refl. simpl. rewrite <- (Hval _ _ Hm). reflexivity.
    + rewrite key_eqb_refl. simpl. rewrite Hkeys in Hn.
      rewrite (filter_key_absent _ _ Hn). simpl. apply eq_sym, fmax_nan_l.
    + assert (E : key_eqb k (okey o) = false) by (apply key_eqb_false; exact Hne).
      rewrite E. simpl. apply Hval; exact Hin'.
Qed.

Lemma gm_inv_fold (l : list orow) (acc : list (key * fval)) (pre : list orow) :
  gm_inv acc pre ->
  gm_inv (fold_left (fun acc o => gm_insert (okey o) (o_rate o) acc) l acc) (pre ++ l).
Proof.
  revert acc pre; induction l as [| o l IH]; intros acc pre H; simpl.
  - rewrite app_nil_r; exact H.
  - replace (pre ++ o :: l) with ((pre ++ [o]) ++ l) by (rewrite <- app_assoc; reflexivity).
    apply IH. apply gm_inv_step; exact H.
Qed.

Lemma groupby_max_inv (Os : list orow) :
  gm_inv (groupby_max Os) (filter (fun o => key_notna (okey o)) Os).
Proof.
  unfold groupby_max. apply (gm_inv_fold _ [] []).
  split; [constructor | split]; simpl; [tauto | intros k v []].
Qed.

Lemma groupby_max_nodup (Os : list orow) : NoDup (map fst (groupby_max Os)).
Proof. apply (groupby_max_inv Os). Qed.

(** ** The left merge against unique keys *)

Lemma matches_absent (D : list (key * fval)) (k : key) :
  ~ In k (map fst D) -> matches D k = [].
Proof.
  induction D as [| [k0 v0] t IH]; simpl; intro H; auto.
  destruct (key_eqb k k0) eqn:E.
  - apply key_eqb_true in E; subst. exfalso; auto.
  - apply IH; auto.
Qed.

Lemma matches_nodup (D : list (key * fval)) (k : key) :
  NoDup (map fst D) ->
  (matches D k = [] /\ attached D k = None) \/
  (exists v, matches D k = [(k, v)] /\ attached D k = Some v).
Proof.
  unfold attached.
  induction D as [| [k0 v0] t IH]; simpl; intro Hnd; [left; auto|].
  inversion Hnd as [| ? ? Hk0 Ht]; subst.
  destruct (key_eqb k k0) eqn:E; simpl.
  - apply key_eqb_true in E; subst. right; exists v0.
    rewrite (matches_absent _ _ Hk0). auto.
  - apply IH; exact Ht.
Qed.

Lemma merge_left_nodup (B : list brow) (D : list (key * fval)) :
  NoDup (map fst D) ->
  merge_left B D = map (fun b => (b, attached_rate D (bkey b))) B.
Proof.
  intro Hnd. unfold merge_left, attached_rate.
  induction B as [| b B IH]; [reflexivity|].
  change (flat_map ?f (b :: B)) with (f b ++ flat_map f B).
  change (map ?f (b :: B)) with (f b :: map f B).
  rewrite IH. cbv beta.
  destruct (matches_nodup D (bkey b) Hnd) as [[-> ->] | [v [-> ->]]]; reflexivity.
Qed.

Lemma reconcile_map (B : list brow) (Os : list orow) :
  reconcile B Os =
  map (fun b => set_bill b (combine_first (attached_rate (groupby_max Os) (bkey b)) (b_bill b))) B.
Proof.
  unfold reconcile, substitute. rewrite merge_left_nodup by apply groupby_max_nodup.
  rewrite map_map. reflexivity.
Qed.

(** ** Normalisation: a cast that raises aborts the request *)

Lemma bind_inr {A B} (m : res A) (k : A -> res B) (x : B) :
  bind m k = inr x -> exists a, m = inr a /\ k a = inr x.
Proof. destruct m as [e | a]; simpl; [discriminate | eauto]. Qed.




(** ** Rows with a missing key *)

Lemma filter_key_present (k : key) (l : list orow) :
  In k (map okey l) -> filter (fun o => key_eqb k (okey o)) l <> [].
Proof.
  induction l as [| o l IH]; simpl; [contradiction |]. intros [E | H].
  - subst. rewrite key_eqb_refl. discriminate.
  - destruct (key_eqb k (okey o)); [discriminate | auto].
Qed.

(** What the merge attaches to a key: nothing when no complete override
    row has that key, else the running maximum of that key's rates. *)
Lemma attached_groupby (Os : list orow) (k : key) :
  attached (groupby_max Os) k =
  match group_rates Os k with [] => None | g => Some (fold_left fmax g FNaN) end.
Proof.
  destruct (groupby_max_inv Os) as [Hnd [Hkeys Hval]].
  destruct (matches_nodup _ k Hnd) as [[Hm Ha] | [v [Hm Ha]]]; rewrite Ha.
  - assert (Hk : ~ In k (map fst (groupby_max Os))).
    { intro Hk. apply in_map_iff in Hk as [[k' v] [E Hin]]. simpl in E; subst k'.
      assert (In (k, v) (matches (groupby_max Os) k))
        by (apply filter_In; split; [exact Hin | apply key_eqb_refl]).
      rewrite Hm in H; contradiction. }
    rewrite Hkeys in Hk. unfold group_rates. rewrite (filter_key_absent _ _ Hk). reflexivity.
  - assert (Hin : In (k, v) (groupby_max Os))
      by (apply (filter_In (fun e => key_eqb k (fst e))); fold (matches (groupby_max Os) k);
          rewrite Hm; left; reflexivity).
    rewrite (Hval _ _ Hin). fold (group_rates Os k).
    assert (Hk : In k (map okey (filter (fun o => key_notna (okey o)) Os)))
      by (apply Hkeys; apply (in_map fst) in Hin; exact Hin).
    pose proof (filter_key_present _ _ Hk) as Hne. unfold group_rates.
    destruct (filter (fun o => key_eqb k (okey o)) _); [contradiction | reflexivity].
Qed.

Lemma group_rates_null_key (Os : list orow) (k : key) :
  key_notna k = false -> group_rates Os k = [].
Proof.
  intro Hk. unfold group_rates. induction Os as [| o Os IH]; cbn [filter]; [reflexivity |].
  destruct (key_notna (okey o)) eqn:E; cbn [filter]; [| exact IH].
  destruct (key_eqb k (okey o)) eqn:F; [| exact IH].
  apply key_eqb_true in F; subst. congruence.
Qed.








(** ** The claims *)

(** C1 (baseline preservation): the reconciled table has exactly as many
    rows as the baseline, and its [i]-th row is the [i]-th baseline row with
    at most its [billRate] replaced: no row is dropped, duplicated or
    moved. *)
Theorem reconcile_preserves_rows (B : list brow) (Os : list orow) :
  length (reconcile B Os) = length B /\
  (forall i b, nth_error B i = Some b ->
     exists v, nth_error (reconcile B Os) i = Some (set_bill b v)).
Proof.
  rewrite reconcile_map. split; [apply length_map |].
  intros i b H. rewrite nth_error_map, H. simpl. eexists; reflexivity.
Qed.

(** C2 (substitution rule): the [billRate] of the [i]-th output row is the
    [new_billRate] attached to its key when that value is present and not
    NaN (zero included), and the baseline's [billRate] otherwise. *)
Theorem reconcile_bill_rate (B : list brow) (Os : list orow) (i : nat) (b : brow)
  (Hb : nth_error B i = Some b) :
  nth_error (reconcile B Os) i =
  Some (set_bill b (match attached (groupby_max Os) (bkey b) with
                    | Some n => if fisna n then b_bill b else VFloat n
                    | None => b_bill b
                    end)).
Proof.
  rewrite reconcile_map, nth_error_map, Hb. simpl.
  unfold attached_rate, combine_first. destruct (attached _ _); reflexivity.
Qed.

(** C3 (max-collapse): the grouped overrides have one row per key of the
    complete override rows and no other; each row's [new_billRate] is the
    running maximum of its group, which is NaN only when the whole group is
    NaN and otherwise a member of the group at least as large as every other
    member; two rows with one key and rates 100 and 150 give one row with
    150. *)
Theorem groupby_max_collapse (Os : list orow) :
  NoDup (map fst (groupby_max Os)) /\
  (forall k, In k (map fst (groupby_max Os)) <->
             In k (map okey (filter (fun o => key_notna (okey o)) Os))) /\
  (forall k v, In (k, v) (groupby_max Os) ->
     v = fold_left fmax (group_rates Os k) FNaN /\
     ((fisna v = true /\ forall x, In x (group_rates Os k) -> fisna x = true) \/
      (fisna v = false /\ In v (group_rates Os k) /\
       forall x, In x (group_rates Os k) -> fisna x = false -> fle x v = true))) /\
  (forall o1 o2, okey o1 = okey o2 -> key_notna (okey o1) = true ->
     o_rate o1 = FNum 100 -> o_rate o2 = FNum 150 ->
     groupby_max [o1; o2] = [(okey o1, FNum 150)]).
Proof.
  destruct (groupby_max_inv Os) as [Hnd [Hkeys Hval]].
  split; [exact Hnd | split; [exact Hkeys | split]].
  - intros k v Hin. pose proof (Hval k v Hin) as Hv. fold (group_rates Os k) in Hv.
    split; [exact Hv |].
    destruct (fold_fmax_spec (group_rates Os k) FNaN) as [Hm [Hn1 [Hn2 Hge]]].
    rewrite <- Hv in Hm, Hn1, Hn2, Hge.
    destruct (existsb (fun x => negb (fisna x)) (group_rates Os k)) eqn:E.
    + right. apply existsb_exists in E. destruct E as [x [Hx Hnx]].
      apply negb_true_iff in Hnx.
      assert (Hvn : fisna v = false) by (apply Hn2; right; eauto).
      split; [exact Hvn | split].
      * destruct Hm as [-> | Hm]; [discriminate | exact Hm].
      * intros y Hy Hny. apply Hge; auto.
    + left.
      assert (Hall : forall x, In x (group_rates Os k) -> fisna x = true).
      { intros x Hx. destruct (fisna x) eqn:F; auto.
        assert (existsb (fun x => negb (fisna x)) (group_rates Os k) = true)
          by (apply existsb_exists; exists x; rewrite F; auto).
        congruence. }
      split; [apply Hn1; auto | exact Hall].
  - intros o1 o2 Hk Hn H1 H2. unfold groupby_max. cbn [filter].
    rewrite <- Hk, Hn. cbn [fold_left gm_insert].
    rewrite <- Hk, key_eqb_refl, H1, H2. reflexivity.
Qed.

(** C4 (incomplete-override exclusion): an override row with a missing
    value in one of the five key fields or in [new_billRate] changes
    nothing: the normalised tables and the response and written table of
    the request are those of the override table without it. *)
Theorem incomplete_override_dropped (pd : pyval -> option date) (P : list prow)
  (L1 L2 : list lrow) (r : lrow) (Hr : complete r = false) :
  normalize pd P (L1 ++ r :: L2) = normalize pd P (L1 ++ L2) /\
  update_bill_rate pd P (L1 ++ r :: L2) = update_bill_rate pd P (L1 ++ L2).
Proof.
  assert (E : filter complete (L1 ++ r :: L2) = filter complete (L1 ++ L2))
    by (rewrite !filter_app; simpl; rewrite Hr; reflexivity).
  assert (N : normalize pd P (L1 ++ r :: L2) = normalize pd P (L1 ++ L2))
    by (unfold normalize; cbv zeta; rewrite E; reflexivity).
  split; [exact N |]. unfold update_bill_rate. rewrite N. reflexivity.
Qed.



(** C7 (no-override passthrough): with an empty override table the
    reconciled table is the baseline itself. *)
Theorem reconcile_no_override (B : list brow) : reconcile B [] = B.
Proof.
  rewrite reconcile_map. induction B as [| b B IH]; simpl; [reflexivity |].
  rewrite IH. destruct b; reflexivity.
Qed.

(** C8 (idempotence): reconciling the output again with the same overrides
    gives the same table, hence the same [billRate] column. *)
Theorem reconcile_idempotent (B : list brow) (Os : list orow) :
  map b_bill (reconcile (reconcile B Os) Os) = map b_bill (reconcile B Os) /\
  reconcile (reconcile B Os) Os = reconcile B Os.
Proof.
  assert (E : reconcile (reconcile B Os) Os = reconcile B Os).
  { rewrite !reconcile_map, map_map. apply map_ext. intro b.
    destruct b; cbn. unfold combine_first.
    destruct (fisna (attached_rate (groupby_max Os) _)); reflexivity. }
  rewrite E; auto.
Qed.

(** C9 (row-count mismatch): when the joined table's row count differs
    from the baseline's, the request answers a 500 response whose text
    carries both counts, writes nothing, and that response differs from the
    generic error response and from the success response. *)
Theorem finish_mismatch (B U : list brow) (H : length U <> length B) :
  finish B U = (mismatch_response (length B) (length U), None) /\
  (forall e, mismatch_response (length B) (length U) <> error_response e) /\
  mismatch_response (length B) (length U) <> success_response.
Proof.
  split; [| split].
  - unfold finish. apply Nat.eqb_neq in H. rewrite H. reflexivity.
  - intros e E. injection E as E. simpl in E. discriminate E.
  - intro E. injection E as E. simpl in E. discriminate E.
Qed.

(** C10 (the mismatch branch is unreachable): after a successful
    normalisation the reconciled table always has the baseline's row count
    and the request answers success with it; no input leads to the
    row-count-mismatch response. *)
Theorem update_bill_rate_never_mismatch (pd : pyval -> option date) (P : list prow)
  (L : list lrow) :
  (forall B Os, normalize pd P L = inr (B, Os) ->
     length (reconcile B Os) = length B /\
     update_bill_rate pd P L = (success_response, Some (reconcile B Os))) /\
  (forall o u, fst (update_bill_rate pd P L) <> mismatch_response o u).
Proof.
  assert (Hfin : forall B Os,
             finish B (reconcile B Os) = (success_response, Some (reconcile B Os))).
  { intros B Os. unfold finish. rewrite reconcile_map, length_map, Nat.eqb_refl.
    reflexivity. }
  split.
  - intros B Os H. split; [rewrite reconcile_map, length_map; reflexivity |].
    unfold update_bill_rate. rewrite H. apply Hfin.
  - intros o u. unfold update_bill_rate.
    destruct (normalize pd P L) as [e | [B Os]].
    + intro E. injection E as E. simpl in E. discriminate E.
    + rewrite Hfin. intro E. discriminate E.
Qed.

(** ** Witnesses and counterexamples *)

(** C2 at a concrete input: an override of exactly zero replaces the
    baseline rate 100. *)
Lemma reconcile_bill_rate_witness :
  nth_error [ex_brow (VFloat (FNum 100))] 0 = Some (ex_brow (VFloat (FNum 100))) /\
  nth_error (reconcile [ex_brow (VFloat (FNum 100))] [ex_orow (FNum 0)]) 0
  = Some (set_bill (ex_brow (VFloat (FNum 100))) (VFloat (FNum 0))).
Proof.
  split; [reflexivity |].
  rewrite (reconcile_bill_rate [ex_brow (VFloat (FNum 100))] [ex_orow (FNum 0)] 0
             (ex_brow (VFloat (FNum 100))) ltac:(reflexivity)).
  reflexivity.
Defined.

(** C4 at a concrete input: an override row with a missing person key. *)
Lemma incomplete_override_dropped_witness :
  complete (ex_labor NaN (VStr "2024-06-30"%string) (VStr "$999"%string)) = false /\
  update_bill_rate iso_date [ex_planned (VInt 1) (VFloat (FNum 100))]
    ([] ++ [ex_labor NaN (VStr "2024-06-30"%string) (VStr "$999"%string)])
  = update_bill_rate iso_date [ex_planned (VInt 1) (VFloat (FNum 100))] ([] ++ []).
Proof.
  split; [reflexivity |].
  destruct (incomplete_override_dropped iso_date [ex_planned (VInt 1) (VFloat (FNum 100))] [] []
              (ex_labor NaN (VStr "2024-06-30"%string) (VStr "$999"%string))
              ltac:(reflexivity)) as [_ H].
  exact H.
Defined.





(** C9 at a concrete input: one updated row against an empty baseline. *)
Lemma finish_mismatch_witness :
  length [ex_brow NaN] <> length ([] : list brow) /\
  finish [] [ex_brow NaN] = (mismatch_response 0 1, None).
Proof.
  split; [simpl; lia |].
  exact (proj1 (finish_mismatch [] [ex_brow NaN] ltac:(simpl; lia))).
Defined.

(** ** Further properties of the reconciliation *)

(** X1: a baseline row with a missing value in one of its five key fields
    is never matched: it comes out unchanged. *)
Theorem reconcile_null_key_untouched (B : list brow) (Os : list orow) (i : nat) (b : brow)
  (Hb : nth_error B i = Some b) (Hk : key_notna (bkey b) = false) :
  nth_error (reconcile B Os) i = Some b.
Proof.
  rewrite reconcile_map, nth_error_map, Hb. simpl.
  unfold attached_rate. rewrite attached_groupby, (group_rates_null_key _ _ Hk).
  destruct b; reflexivity.
Qed.


Lemma Permutation_filter_compat {A} (f : A -> bool) (l l' : list A) :
  Permutation l l' -> Permutation (filter f l) (filter f l').
Proof.
  induction 1 as [| x l l' _ IH | x y l | l l' l'' _ IH1 _ IH2]; simpl.
  - constructor.
  - destruct (f x); [constructor |]; exact IH.
  - destruct (f x), (f y); try constructor; apply Permutation_refl.
  - eapply perm_trans; eauto.
Qed.

Lemma group_rates_perm (Os Os' : list orow) (k : key) :
  Permutation Os Os' -> Permutation (group_rates Os k) (group_rates Os' k).
Proof.
  intro H. unfold group_rates.
  apply Permutation_map, Permutation_filter_compat, Permutation_filter_compat, H.
Qed.

Lemma feq_refl (a : fval) : feq a a.
Proof. destruct a; simpl; auto. apply Qeq_refl. Qed.

Lemma cell_equiv_refl (v : pyval) : cell_equiv v v.
Proof. destruct v; simpl; auto. apply feq_refl. Qed.

Lemma fle_antisym (a b : fval) :
  fisna a = false -> fisna b = false -> fle a b = true -> fle b a = true -> feq a b.
Proof.
  unfold fle. destruct a as [x | [|] |], b as [y | [|] |]; simpl; intros; try discriminate; auto.
  rewrite negb_involutive in *. apply Qle_bool_iff in H1, H2. apply Qle_antisym; assumption.
Qed.

Lemma fold_fmax_perm (l l' : list fval) :
  Permutation l l' -> feq (fold_left fmax l FNaN) (fold_left fmax l' FNaN).
Proof.
  intro HP.
  destruct (fold_fmax_spec l FNaN) as [Hin [Hnan [Hnot Hge]]].
  destruct (fold_fmax_spec l' FNaN) as [Hin' [Hnan' [Hnot' Hge']]].
  destruct (existsb (fun x => negb (fisna x)) l) eqn:E.
  - apply existsb_exists in E as [x [Hx Hxn]]. apply negb_true_iff in Hxn.
    assert (N : fisna (fold_left fmax l FNaN) = false) by (apply Hnot; right; eauto).
    assert (N' : fisna (fold_left fmax l' FNaN) = false)
      by (apply Hnot'; right; exists x; split; [eapply Permutation_in; eauto | exact Hxn]).
    assert (I : In (fold_left fmax l FNaN) l)
      by (destruct Hin as [Hv | Hv]; [rewrite Hv in N; discriminate | exact Hv]).
    assert (I' : In (fold_left fmax l' FNaN) l')
      by (destruct Hin' as [Hv | Hv]; [rewrite Hv in N'; discriminate | exact Hv]).
    apply fle_antisym; auto.
    + apply Hge'; auto. right. eapply Permutation_in; eauto.
    + apply Hge; auto. right. eapply Permutation_in; [apply Permutation_sym |]; eauto.
  - assert (All : forall x, In x l -> fisna x = true).
    { intros x Hx. destruct (fisna x) eqn:F; [reflexivity |].
      assert (existsb (fun x => negb (fisna x)) l = true)
        by (apply existsb_exists; exists x; rewrite F; auto).
      congruence. }
    assert (A1 : fisna (fold_left fmax l FNaN) = true) by (apply Hnan; auto).
    assert (A2 : fisna (fold_left fmax l' FNaN) = true).
    { apply Hnan'. split; [reflexivity |]. intros x Hx. apply All.
      eapply Permutation_in; [apply Permutation_sym |]; eauto. }
    destruct (fold_left fmax l FNaN), (fold_left fmax l' FNaN); simpl in *; try discriminate; auto.
Qed.

Lemma attached_rate_perm (Os Os' : list orow) (k : key) :
  Permutation Os Os' ->
  feq (attached_rate (groupby_max Os) k) (attached_rate (groupby_max Os') k).
Proof.
  intro H. pose proof (group_rates_perm _ _ k H) as HP. unfold attached_rate.
  rewrite !attached_groupby.
  destruct (group_rates Os k) eqn:E1, (group_rates Os' k) eqn:E2.
  - simpl; auto.
  - apply Permutation_nil in HP; discriminate.
  - apply Permutation_sym, Permutation_nil in HP; discriminate.
  - rewrite <- E1, <- E2. apply fold_fmax_perm. rewrite E1, E2. exact HP.
Qed.

(** X3: reordering the override rows changes no row of the reconciled
    table other than possibly the representation of an equal bill rate. *)
Theorem reconcile_override_order (B : list brow) (Os Os' : list orow)
  (HP : Permutation Os Os') :
  Forall2 (fun r r' => set_bill r (b_bill r') = r' /\ cell_equiv (b_bill r) (b_bill r'))
    (reconcile B Os) (reconcile B Os').
Proof.
  rewrite !reconcile_map. induction B as [| b B IH]; simpl; constructor; auto.
  split; [destruct b; reflexivity |]. simpl.
  pose proof (attached_rate_perm _ _ (bkey b) HP) as E.
  unfold combine_first.
  destruct (attached_rate (groupby_max Os) (bkey b)), (attached_rate (groupby_max Os') (bkey b));
    simpl in *; try contradiction; auto using cell_equiv_refl.
Qed.

(** ** The frames: header, required columns, exceptions *)

Lemma lstrip_ws_idem (l : list ascii) : lstrip_ws (lstrip_ws l) = lstrip_ws l.
Proof.
  induction l as [| c r IH]; simpl; [reflexivity |].
  destruct (py_isspace c) eqn:E; [exact IH | simpl; rewrite E; reflexivity].
Qed.

Lemma lstrip_ws_head (l r : list ascii) (c : ascii) :
  lstrip_ws l = c :: r -> py_isspace c = false.
Proof.
  induction l as [| a l IH]; simpl; [discriminate |].
  destruct (py_isspace a) eqn:E; [exact IH | intro H; injection H as -> _; exact E].
Qed.

Lemma lstrip_ws_snoc (x : list ascii) (c : ascii) :
  py_isspace c = false -> exists p, lstrip_ws (x ++ [c]) = p ++ [c].
Proof.
  intro Hc. induction x as [| a x IH]; simpl.
  - rewrite Hc. exists []. reflexivity.
  - destruct (py_isspace a); [exact IH | exists (a :: x); reflexivity].
Qed.

Lemma strip_ws_idem (l : list ascii) :
  let st l := rev (lstrip_ws (rev (lstrip_ws l))) in st (st l) = st l.
Proof.
  cbv beta zeta.
  assert (Hs : lstrip_ws (rev (lstrip_ws (rev (lstrip_ws l)))) =
               rev (lstrip_ws (rev (lstrip_ws l)))).
  { destruct (lstrip_ws l) as [| c t] eqn:Em; [reflexivity |].
    pose proof (lstrip_ws_head _ _ _ Em) as Hc. simpl.
    destruct (lstrip_ws_snoc (rev t) c Hc) as [p Hp]. rewrite Hp, rev_app_distr.
    simpl. rewrite Hc. reflexivity. }
  rewrite Hs, rev_involutive, lstrip_ws_idem. reflexivity.
Qed.

Lemma str_strip_idem (s : string) : str_strip (str_strip s) = str_strip s.
Proof.
  unfold str_strip. rewrite list_ascii_of_string_of_list_ascii.
  f_equal. apply (strip_ws_idem (list_ascii_of_string s)).
Qed.

Lemma mem_In (n : string) (cols : list string) : mem n cols = true <-> In n cols.
Proof.
  unfold mem. rewrite existsb_exists. split.
  - intros [x [Hx E]]. apply String.eqb_eq in E. subst. exact Hx.
  - intro H. exists n. split; [exact H | apply String.eqb_refl].
Qed.

Lemma missing_nil (cols req : list string) :
  missing cols req = [] <-> forall n, In n req -> mem n cols = true.
Proof.
  unfold missing. induction req as [| r req IH]; simpl.
  - split; [contradiction | reflexivity].
  - destruct (mem r cols) eqn:E; simpl.
    + rewrite IH. split; [intros H n [<- | Hn]; auto | intros H n Hn; auto].
    + split; [discriminate | intro H; rewrite (H r (or_introl eq_refl)) in E; discriminate].
Qed.

Lemma rename_one_required (x n : string) :
  In n labor_required -> (rename_one x = n <-> x = n \/ In (x, n) labor_renames).
Proof.
  intro Hn. unfold rename_one, labor_renames. cbn [find fst snd].
  repeat match goal with
         | |- context [String.eqb ?a ?b] => destruct (String.eqb_spec a b)
         end; subst;
  simpl in Hn; simpl;
  repeat match goal with H : _ \/ _ |- _ => destruct H end; try contradiction; subst;
  split; intro H;
  repeat match goal with H : _ \/ _ |- _ => destruct H end;
  try solve [ congruence
            | tauto
            | left; congruence
            | right; tauto ].
Qed.

(** X4: the second strip of the labor header (line 70) changes nothing:
    the labor columns are the header read, stripped once, then renamed. *)
Theorem labor_frame_strip_once (raw : frame) :
  labor_frame raw = rename_labor (strip_columns raw).
Proof.
  unfold labor_frame, strip_columns. simpl. rewrite map_map.
  rewrite (map_ext _ _ str_strip_idem). reflexivity.
Qed.

(** X5: the [dropna] of line 85 finds all six columns exactly when, for
    each of them, the labor file has a header that, once stripped, is
    either the column's own name or the name the rename maps to it. *)
Theorem labor_columns_present (raw : frame) :
  missing (columns (labor_frame raw)) labor_required = [] <->
  forall n, In n labor_required ->
    exists h, In h (columns raw) /\ (str_strip h = n \/ In (str_strip h, n) labor_renames).
Proof.
  rewrite missing_nil, labor_frame_strip_once. simpl. split.
  - intros H n Hn. specialize (H n Hn). apply mem_In, in_map_iff in H as [h' [E Hh']].
    apply in_map_iff in Hh' as [h [<- Hh]]. exists h. split; [exact Hh |].
    apply rename_one_required; assumption.
  - intros H n Hn. destruct (H n Hn) as [h [Hh E]]. apply mem_In, in_map_iff.
    exists (str_strip h). split; [apply rename_one_required; assumption | apply in_map, Hh].
Qed.

(** X6: when a labor column is missing, the handler answers 500 with the
    [KeyError] of the [dropna], listing the missing names, before reading
    any cell; the planned file is never written. *)
Theorem update_frames_missing_labor_column (pd : pyval -> option date) (Praw Lraw : frame)
  (H : missing (columns (labor_frame Lraw)) labor_required <> []) :
  update_frames pd Praw Lraw =
  (Response ("Error processing request: "
             ++ frame_exn_message (KeyErrorList (missing (columns (labor_frame Lraw)) labor_required)))
            500, None).
Proof.
  unfold update_frames, normalize_frames.
  destruct (missing (columns (labor_frame Lraw)) labor_required) eqn:E;
    [contradiction | reflexivity].
Qed.

Lemma fbind_inr {A B} (m : fres A) (k : A -> fres B) (x : B) :
  fbind m k = inr x -> exists a, m = inr a /\ k a = inr x.
Proof. destruct m as [e | a]; simpl; [discriminate | eauto]. Qed.

Lemma lift_inr {A} (m : res A) (a : A) : lift m = inr a -> m = inr a.
Proof. destruct m; simpl; congruence. Qed.

Lemma require_col_inr (cols : list string) (n : string) (u : unit) :
  require_col cols n = inr u -> mem n cols = true.
Proof. unfold require_col. destruct (mem n cols); congruence. Qed.

Lemma traverse_length {A B} (f : A -> res B) (l : list A) (l' : list B) :
  traverse f l = inr l' -> length l' = length l.
Proof.
  revert l'; induction l as [| a t IH]; simpl; intros l' H.
  - injection H as <-. reflexivity.
  - apply bind_inr in H as [b [_ H]]. apply bind_inr in H as [bt [Ht H]].
    injection H as <-. simpl. f_equal. apply IH, Ht.
Qed.

Lemma build_b_length (P : list prow) pp pj pb pe :
  length pp = length P -> length pj = length P -> length pb = length P ->
  length pe = length P -> length (build_b P pp pj pb pe) = length P.
Proof.
  revert pp pj pb pe.
  induction P as [| r P IH]; intros [| a pp] [| b pj] [| c pb] [| d pe]; simpl;
    intros; try discriminate; auto.
Qed.

(** What a successful run of the frame handler's [try] block has checked,
    and the shape of the baseline it builds. *)
Lemma normalize_frames_inr (pd : pyval -> option date) (Praw Lraw : frame) B Os :
  normalize_frames pd Praw Lraw = inr (B, Os) ->
  missing (columns (labor_frame Lraw)) labor_required = [] /\
  missing (columns (planned_frame Praw)) planned_required = [] /\
  mem "new_billRate" (columns (planned_frame Praw)) = false /\
  length B = length (rows Praw).
Proof.
  unfold normalize_frames. cbv zeta. intro H.
  repeat (apply fbind_inr in H; destruct H as [? [? H]]).
  repeat match goal with
         | E : lift _ = inr _ |- _ => apply lift_inr in E
         | E : require_col _ _ = inr _ |- _ => apply require_col_inr in E
         end.
  injection H as <- _.
  split; [| split; [| split]].
  - destruct (missing _ labor_required); [reflexivity | discriminate].
  - apply missing_nil. intros n Hn.
    simpl in Hn; repeat destruct Hn as [<- | Hn]; try assumption; contradiction.
  - destruct (mem "new_billRate" _); [discriminate | reflexivity].
  - repeat match goal with
           | E : traverse _ (planned_rows Praw) = inr _ |- _ =>
               apply traverse_length in E
           end.
    unfold planned_rows in *. rewrite length_map in *.
    rewrite build_b_length; rewrite ?length_map; auto.
Qed.

(** X7: when the planned file lacks a column the handler reads, or has a
    column [new_billRate] (which the merge suffixes, so that line 122 finds
    no such column), the handler answers 500 and writes nothing. *)
Theorem update_frames_planned_columns (pd : pyval -> option date) (Praw Lraw : frame)
  (H : missing (columns (planned_frame Praw)) planned_required <> [] \/
       mem "new_billRate" (columns (planned_frame Praw)) = true) :
  exists msg, update_frames pd Praw Lraw = (Response ("Error processing request: " ++ msg) 500, None).
Proof.
  unfold update_frames.
  destruct (normalize_frames pd Praw Lraw) as [e | [B Os]] eqn:N.
  - eexists; reflexivity.
  - exfalso. apply normalize_frames_inr in N as [_ [HP [HN _]]].
    destruct H as [H | H]; congruence.
Qed.

(** X9: the handler on the two files answers 200 exactly when it writes
    the planned file, and a written table has one row per row of the
    planned file read. *)
Theorem update_frames_write (pd : pyval -> option date) (Praw Lraw : frame) :
  (fst (update_frames pd Praw Lraw) = success_response <-> snd (update_frames pd Praw Lraw) <> None) /\
  (forall t, snd (update_frames pd Praw Lraw) = Some t -> length t = length (rows Praw)).
Proof.
  unfold update_frames.
  destruct (normalize_frames pd Praw Lraw) as [e | [B Os]] eqn:N.
  - simpl. split; [| discriminate]. split; [| tauto].
    intro E. injection E as E. destruct e; discriminate E.
  - apply normalize_frames_inr in N as [_ [_ [_ HB]]].
    unfold finish. rewrite reconcile_map, length_map, Nat.eqb_refl. simpl.
    split; [split; [discriminate | reflexivity] |].
    intros t Ht. injection Ht as <-. rewrite length_map. exact HB.
Qed.

Lemma bkey_set_bill (b : brow) (v : pyval) : bkey (set_bill b v) = bkey b.
Proof. destruct b; reflexivity. Qed.

(** X10: running the reconciliation again on its own output with a newer
    override table that has a rate for every baseline key the older one
    had gives the same table as the newer run alone: the older rates are
    not kept, even where they were higher. *)
Theorem reconcile_rerun (B : list brow) (Os1 Os2 : list orow)
  (Hcover : forall b, In b B ->
     fisna (attached_rate (groupby_max Os1) (bkey b)) = false ->
     fisna (attached_rate (groupby_max Os2) (bkey b)) = false) :
  reconcile (reconcile B Os1) Os2 = reconcile B Os2.
Proof.
  rewrite (reconcile_map B Os1), !reconcile_map, map_map. apply map_ext_in.
  intros b Hb. rewrite bkey_set_bill. specialize (Hcover _ Hb). unfold combine_first.
  destruct (fisna (attached_rate (groupby_max Os2) (bkey b))) eqn:E2;
    [| destruct b; reflexivity].
  destruct (fisna (attached_rate (groupby_max Os1) (bkey b))) eqn:E1;
    [destruct b; reflexivity |].
  discriminate (Hcover eq_refl).
Qed.

Lemma build_b_nth (P : list prow) pp pj pb pe (i : nat) (r : prow) :
  length pp = length P -> length pj = length P -> length pb = length P ->
  length pe = length P -> nth_error P i = Some r ->
  exists b, nth_error (build_b P pp pj pb pe) i = Some b /\
            b_lcat b = p_lcat r /\ b_extra b = p_extra r.
Proof.
  revert pp pj pb pe i.
  induction P as [| r0 P IH]; intros [| a pp] [| b pj] [| c pb] [| d pe] i; simpl;
    intros; try discriminate; destruct i as [| i]; simpl in *; try discriminate.
  - injection H3 as <-. eexists; split; [reflexivity | split; reflexivity].
  - apply IH; auto.
Qed.

Lemma normalize_frames_baseline (pd : pyval -> option date) (Praw Lraw : frame) B Os :
  normalize_frames pd Praw Lraw = inr (B, Os) ->
  exists pp pj pb pe, B = build_b (planned_rows Praw) pp pj pb pe /\
    length pp = length (planned_rows Praw) /\ length pj = length (planned_rows Praw) /\
    length pb = length (planned_rows Praw) /\ length pe = length (planned_rows Praw).
Proof.
  unfold normalize_frames. cbv zeta. intro H.
  repeat (apply fbind_inr in H; destruct H as [? [? H]]).
  repeat match goal with
         | E : lift _ = inr _ |- _ => apply lift_inr in E
         end.
  injection H as <- _.
  repeat match goal with
         | E : traverse _ (planned_rows Praw) = inr _ |- _ => apply traverse_length in E
         end.
  do 4 eexists. split; [reflexivity |]. auto.
Qed.

(** X11: a written table keeps, at the position of each row of the planned
    file, that row's [laborCategory.name] and all its other columns
    unchanged. *)
Theorem update_frames_keeps_columns (pd : pyval -> option date) (Praw Lraw : frame)
  (t : list brow) (Ht : snd (update_frames pd Praw Lraw) = Some t)
  (i : nat) (row : list pyval) (Hi : nth_error (rows Praw) i = Some row) :
  exists r, nth_error t i = Some r /\
    b_lcat r = get (columns (planned_frame Praw)) row "laborCategory.name" /\
    b_extra r = extras (columns (planned_frame Praw)) row planned_required.
Proof.
  unfold update_frames in Ht.
  destruct (normalize_frames pd Praw Lraw) as [e | [B Os]] eqn:N; [discriminate |].
  unfold finish in Ht. rewrite reconcile_map, length_map, Nat.eqb_refl in Ht.
  simpl in Ht. injection Ht as <-.
  apply normalize_frames_baseline in N as [pp [pj [pb [pe [-> [H1 [H2 [H3 H4]]]]]]]].
  assert (HP : nth_error (planned_rows Praw) i =
               Some (to_prow (columns (planned_frame Praw)) row))
    by (unfold planned_rows; rewrite nth_error_map; simpl; rewrite Hi; reflexivity).
  destruct (build_b_nth _ _ _ _ _ _ _ H1 H2 H3 H4 HP) as [b [Hb [Hl He]]].
  exists (set_bill b (combine_first (attached_rate (groupby_max Os) (bkey b)) (b_bill b))).
  rewrite nth_error_map, Hb. split; [reflexivity |]. destruct b; simpl in *. auto.
Qed.


(** ** Witnesses of the further properties *)

Lemma reconcile_null_key_untouched_witness :
  let b := {| b_person := None; b_project := Some 10; b_lcat := VStr "Engineer"%string;
              b_begin := Some 20240101; b_end := Some 20240630; b_bill := VFloat (FNum 100);
              b_extra := [] |} in
  nth_error [b] 0 = Some b /\ key_notna (bkey b) = false /\
  nth_error (reconcile [b] [ex_orow (FNum 150)]) 0 = Some b.
Proof.
  cbv zeta. split; [reflexivity | split; [reflexivity |]].
  apply reconcile_null_key_untouched; reflexivity.
Defined.


Lemma reconcile_override_order_witness :
  Permutation [ex_orow (FNum 150); ex_orow (FNum 120)] [ex_orow (FNum 120); ex_orow (FNum 150)] /\
  Forall2 (fun r r' => set_bill r (b_bill r') = r' /\ cell_equiv (b_bill r) (b_bill r'))
    (reconcile [ex_brow (VFloat (FNum 100))] [ex_orow (FNum 150); ex_orow (FNum 120)])
    (reconcile [ex_brow (VFloat (FNum 100))] [ex_orow (FNum 120); ex_orow (FNum 150)]).
Proof.
  split; [apply perm_swap | apply reconcile_override_order, perm_swap].
Defined.

Lemma update_frames_missing_labor_column_witness :
  missing (columns (labor_frame (ex_labor_frame "Finish"%string))) labor_required <> [] /\
  update_frames iso_date (ex_planned_frame "billRate"%string) (ex_labor_frame "Finish"%string) =
  (Response ("Error processing request: " ++ frame_exn_message (KeyErrorList ["endDate"%string]))
            500, None).
Proof.
  assert (H : missing (columns (labor_frame (ex_labor_frame "Finish"%string))) labor_required <> [])
    by (vm_compute; discriminate).
  split; [exact H |]. apply (update_frames_missing_labor_column iso_date _ _ H).
Defined.

Lemma update_frames_planned_columns_witness :
  (missing (columns (planned_frame (ex_planned_frame "Bill Rate"%string))) planned_required <> [] \/
   mem "new_billRate" (columns (planned_frame (ex_planned_frame "Bill Rate"%string))) = true) /\
  exists msg, update_frames iso_date (ex_planned_frame "Bill Rate"%string)
                (ex_labor_frame " End Date "%string) =
              (Response ("Error processing request: " ++ msg) 500, None).
Proof.
  assert (H : missing (columns (planned_frame (ex_planned_frame "Bill Rate"%string)))
                planned_required <> [] \/
              mem "new_billRate" (columns (planned_frame (ex_planned_frame "Bill Rate"%string)))
                = true)
    by (left; vm_compute; discriminate).
  split; [exact H | apply update_frames_planned_columns; exact H].
Defined.

Lemma reconcile_rerun_witness :
  (forall b, In b [ex_brow (VFloat (FNum 100))] ->
     fisna (attached_rate (groupby_max [ex_orow (FNum 150)]) (bkey b)) = false ->
     fisna (attached_rate (groupby_max [ex_orow (FNum 120)]) (bkey b)) = false) /\
  reconcile (reconcile [ex_brow (VFloat (FNum 100))] [ex_orow (FNum 150)]) [ex_orow (FNum 120)] =
  reconcile [ex_brow (VFloat (FNum 100))] [ex_orow (FNum 120)].
Proof.
  assert (H : forall b, In b [ex_brow (VFloat (FNum 100))] ->
     fisna (attached_rate (groupby_max [ex_orow (FNum 150)]) (bkey b)) = false ->
     fisna (attached_rate (groupby_max [ex_orow (FNum 120)]) (bkey b)) = false)
    by (intros b [<- | []] _; vm_compute; reflexivity).
  split; [exact H | apply reconcile_rerun; exact H].
Defined.

Lemma update_frames_keeps_columns_witness :
  let t := [{| b_person := Some 1; b_project := Some 10; b_lcat := VStr "Engineer"%string;
               b_begin := Some 20240101; b_end := Some 20240630; b_bill := VFloat (FNum 1250);
               b_extra := [("name"%string, VStr "Ada"%string)] |}] in
  let row := [VInt 1; VInt 10; VStr "Engineer"%string; VStr "2024-01-01"%string;
              VStr "2024-06-30"%string; VFloat (FNum 100); VStr "Ada"%string] in
  snd (update_frames iso_date (ex_planned_frame "billRate"%string)
         (ex_labor_frame " End Date "%string)) = Some t /\
  nth_error (rows (ex_planned_frame "billRate"%string)) 0 = Some row /\
  exists r, nth_error t 0 = Some r /\
    b_lcat r = get (columns (planned_frame (ex_planned_frame "billRate"%string))) row
                 "laborCategory.name" /\
    b_extra r = extras (columns (planned_frame (ex_planned_frame "billRate"%string))) row
                  planned_required.
Proof.
  cbv zeta.
  split; [vm_compute; reflexivity |]. split; [reflexivity |].
  apply (update_frames_keeps_columns iso_date _ (ex_labor_frame " End Date "%string)); [vm_compute; reflexivity | reflexivity].
Defined.
